(** * bag-scan-api: a shallow embedding of [app.py]

    Text is modelled as Rocq [string]s of 8-bit characters, read as the
    code points 0..255.  Python's case mappings are applied to the ASCII
    letters only; for the tokens the code looks for ("today", "lbs", "wf",
    "date", "customer") no other character of that range maps onto them. *)

From Stdlib Require Import String Ascii List ZArith Lia Bool Arith Permutation.
Import ListNotations.
Set Warnings "-register-all".
Open Scope string_scope.
Open Scope nat_scope.

(** ** Python string primitives *)

Module Py.

(** [str.isspace] on the code points 0..255: TAB..CR, the four
    information separators 0x1C..0x1F, space, NEL (0x85) and NBSP (0xA0).
    This is also the set matched by [\s] in a [str] regular expression. *)
Definition isspace (c : ascii) : bool :=
  let n := nat_of_ascii c in
  ((9 <=? n) && (n <=? 13)) || ((28 <=? n) && (n <=? 32))
  || (n =? 133) || (n =? 160).

(** [str.isdecimal] on one character: in 0..255 only the ASCII digits
    have the Unicode category Nd. *)
Definition isdecimal_char (c : ascii) : bool :=
  let n := nat_of_ascii c in (48 <=? n) && (n <=? 57).

(** [str.isdigit] on one character: the decimal digits and the
    superscripts two, three and one (0xB2, 0xB3, 0xB9), whose Unicode
    digit value is set. *)
Definition isdigit_char (c : ascii) : bool :=
  let n := nat_of_ascii c in
  isdecimal_char c || (n =? 178) || (n =? 179) || (n =? 185).

Fixpoint lstrip_l (l : list ascii) : list ascii :=
  match l with
  | c :: r => if isspace c then lstrip_l r else l
  | [] => []
  end.

(** [s.strip()] *)
Definition strip (s : string) : string :=
  string_of_list_ascii
    (rev (lstrip_l (rev (lstrip_l (list_ascii_of_string s))))).

(** [s.isdigit()]: non-empty and every character a digit. *)
Definition isdigit (s : string) : bool :=
  match list_ascii_of_string s with
  | [] => false
  | l => forallb isdigit_char l
  end.

Definition lower_char (c : ascii) : ascii :=
  let n := nat_of_ascii c in
  if (65 <=? n) && (n <=? 90) then ascii_of_nat (n + 32) else c.

Definition upper_char (c : ascii) : ascii :=
  let n := nat_of_ascii c in
  if (97 <=? n) && (n <=? 122) then ascii_of_nat (n - 32) else c.

Definition lower (s : string) : string :=
  string_of_list_ascii (map lower_char (list_ascii_of_string s)).

Definition upper (s : string) : string :=
  string_of_list_ascii (map upper_char (list_ascii_of_string s)).

Fixpoint prefix_l (p l : list ascii) : bool :=
  match p, l with
  | [], _ => true
  | a :: p', b :: l' => Ascii.eqb a b && prefix_l p' l'
  | _ :: _, [] => false
  end.

Fixpoint contains_l (l p : list ascii) : bool :=
  prefix_l p l || match l with [] => false | _ :: r => contains_l r p end.

(** [p in s] *)
Definition contains (s p : string) : bool :=
  contains_l (list_ascii_of_string s) (list_ascii_of_string p).

(** *** [float(s)] succeeds

    CPython's grammar for [float()] after the surrounding whitespace is
    removed: an optional sign, then "inf", "infinity" or "nan" in any case,
    or a decimal literal [digitpart ["." [digitpart]] [exponent]] or
    ["." digitpart [exponent]], where a digitpart may separate digits by
    single underscores. *)

(** consumes a digitpart, returning what follows it *)
Fixpoint digitpart_rest (l : list ascii) : list ascii :=
  match l with
  | c :: r =>
      if isdecimal_char c then digitpart_rest r
      else if Ascii.eqb c "_"%char then
        match r with
        | d :: r' => if isdecimal_char d then digitpart_rest r' else l
        | [] => l
        end
      else l
  | [] => []
  end.

Definition digitpart (l : list ascii) : option (list ascii) :=
  match l with
  | c :: r => if isdecimal_char c then Some (digitpart_rest r) else None
  | [] => None
  end.

Definition drop_sign (l : list ascii) : list ascii :=
  match l with
  | c :: r => if Ascii.eqb c "+"%char || Ascii.eqb c "-"%char then r else l
  | [] => []
  end.

Definition exponent_ok (l : list ascii) : bool :=
  match l with
  | [] => true
  | c :: r =>
      if Ascii.eqb c "e"%char || Ascii.eqb c "E"%char then
        match digitpart (drop_sign r) with
        | Some [] => true
        | _ => false
        end
      else false
  end.

Definition decimal_ok (l : list ascii) : bool :=
  match digitpart l with
  | Some r =>
      match r with
      | c :: r' =>
          if Ascii.eqb c "."%char then
            match digitpart r' with
            | Some r'' => exponent_ok r''
            | None => exponent_ok r'
            end
          else exponent_ok r
      | [] => true
      end
  | None =>
      match l with
      | c :: r =>
          if Ascii.eqb c "."%char then
            match digitpart r with
            | Some r' => exponent_ok r'
            | None => false
            end
          else false
      | [] => false
      end
  end.

Definition float_ok (s : string) : bool :=
  let l := drop_sign (list_ascii_of_string (strip s)) in
  let w := lower (string_of_list_ascii l) in
  String.eqb w "inf" || String.eqb w "infinity" || String.eqb w "nan"
  || decimal_ok l.

End Py.

(** ** Spreadsheet cells

    A cell is its text [str(v)], or [None] for an empty cell, which pandas
    reads as NaN. *)
Definition Cell := option string.

(** [str(v)]: NaN prints as "nan". *)
Definition str_cell (v : Cell) : string :=
  match v with Some s => s | None => "nan" end.

(** ** [classify_service] (lines 73-81) *)

Inductive Category := HangDry | WashAndFold.

Definition classify_service (v : Cell) : Category :=
  let s := Py.strip (str_cell v) in
  if Py.isdigit s then HangDry
  else if Py.float_ok s then WashAndFold
  else if Py.contains (Py.lower s) "lbs" then WashAndFold
  else HangDry.

(** ** Rush detection (lines 85-92) *)

Module Rush.

(** One attempt of [re.match(r"\s*TODAY\s*", ..., re.IGNORECASE)] at the
    head of [l]: [\s*] is greedy and no whitespace is a letter, so the
    pattern matches exactly when the first non-blank characters spell
    "today" in any case; the match then swallows the following blanks. *)
Definition match_today (l : list ascii) : option (list ascii) :=
  let r := Py.lstrip_l l in
  if Py.prefix_l (list_ascii_of_string "today") (map Py.lower_char r)
  then Some (Py.lstrip_l (skipn 5 r))
  else None.

(** [re.sub(r"\s*TODAY\s*", "", s, flags=re.IGNORECASE)]: scan left to
    right, delete every non-overlapping match and keep every other
    character.  [fuel] bounds the scan; every step consumes a character. *)
Fixpoint sub_today_l (fuel : nat) (l : list ascii) : list ascii :=
  match fuel with
  | 0 => l
  | S fuel' =>
      match l with
      | [] => []
      | c :: r =>
          match match_today l with
          | Some rest => sub_today_l fuel' rest
          | None => c :: sub_today_l fuel' r
          end
      end
  end.

Definition sub_today (s : string) : string :=
  let l := list_ascii_of_string s in
  string_of_list_ascii (sub_today_l (S (length l)) l).

(** [df["Date"].astype(str).str.upper().str.contains("TODAY")] *)
Definition has_today (date : string) : bool :=
  Py.contains (Py.upper date) "TODAY".

End Rush.

(** ** The imported frame *)

(** A row that survived [dropna]: its date and name cells are present. *)
Record Row := mkRow { r_date : string; r_customer : string; r_wf : Cell }.

(** A row with the columns [Category], [Actual_Date] and [Rush] added. *)
Record ClassRow := mkClassRow {
  c_row : Row;
  c_category : Category;
  c_actual_date : string;
  c_rush : bool }.

Definition actual_date (r : Row) : string := Rush.sub_today (r_date r).

(** [rush_days = set(df.loc[has_today, "Actual_Date"])], as a list *)
Definition rush_days (rows : list Row) : list string :=
  map actual_date (filter (fun r => Rush.has_today (r_date r)) rows).

Definition classify_frame (rows : list Row) : list ClassRow :=
  let days := rush_days rows in
  map (fun r =>
         mkClassRow r (classify_service (r_wf r)) (actual_date r)
           (existsb (String.eqb (actual_date r)) days))
    rows.

(** ** Column resolution and row filtering (lines 61-70) *)

Record Sheet := mkSheet { headers : list string; cells : list (list Cell) }.

Fixpoint find_index {A} (p : A -> bool) (l : list A) : option nat :=
  match l with
  | [] => None
  | x :: r => if p x then Some 0 else option_map S (find_index p r)
  end.

Definition count_eq (h : string) (l : list string) : nat :=
  length (filter (String.eqb h) l).

(** The error text a failed step reports as [str(e)]: a [next()] over an
    exhausted generator raises [StopIteration()], whose text is empty. *)
Definition err_stop_iteration : string := "".
Definition err_length_mismatch : string :=
  "Length mismatch: Expected axis has more elements than new values".

(** [df[[date_col, name_col, wf_col]]] selects every column carrying one of
    these labels; when a label occurs twice the frame gets more than three
    columns and renaming it to three names raises. *)
Definition frame_of_sheet (sh : Sheet) : string + list Row :=
  let hs := map Py.strip (headers sh) in
  match find_index (fun c => Py.contains (Py.lower c) "date") hs,
        find_index (fun c => Py.contains (Py.lower c) "customer") hs,
        find_index (fun c => Py.contains (Py.lower c) "wf"
                             || Py.contains (Py.lower c) "lbs") hs with
  | Some di, Some ni, Some wi =>
      let sel := [nth di hs ""; nth ni hs ""; nth wi hs ""] in
      if existsb (fun h => 1 <? count_eq h hs) sel then inl err_length_mismatch
      else
        inr (flat_map (fun row =>
               match nth di row None, nth ni row None with
               | Some d, Some n => [mkRow d n (nth wi row None)]
               | _, _ => []
               end) (cells sh))
  | _, _, _ => inl err_stop_iteration
  end.

(** ** Responses *)

Inductive JVal :=
| JStr (s : string)
| JInt (z : Z)
| JBool (b : bool)
| JList (l : list JVal)
| JObj (o : list (string * JVal)).

(** A handler either returns [jsonify(body), code] or lets an exception
    escape, which Flask turns into its generic 500 page. *)
Inductive Response :=
| Resp (code : Z) (body : list (string * JVal))
| Crash (exc : string).

Definition err (code : Z) (msg : string) : Response :=
  Resp code [("error", JStr msg)].

Definition has_key (k : string) (r : Response) : bool :=
  match r with
  | Resp _ body => existsb (fun kv => String.eqb (fst kv) k) body
  | Crash _ => false
  end.

(** [str(n)] for a natural number *)
Fixpoint digits_rev (fuel n : nat) : list ascii :=
  match fuel with
  | 0 => []
  | S f =>
      ascii_of_nat (48 + n mod 10) ::
        (if n <? 10 then [] else digits_rev f (n / 10))
  end.

Definition nat_to_string (n : nat) : string :=
  string_of_list_ascii (rev (digits_rev (S n) n)).

(** ** The store: table [bags (name NVARCHAR(200) PRIMARY KEY, scanned BIT)]

    SQL Server compares names with the collation of the column: [=] and
    the primary key ignore trailing spaces under every collation, and a
    case-insensitive collation (the default of Azure SQL) also ignores
    case.  The collation is a parameter of the model. *)

Class Collation := coll_eq : string -> string -> bool.

(** The laws every collation satisfies: its equality is an equivalence. *)
Class CollationEquiv `{Collation} : Prop := {
  coll_refl : forall a, coll_eq a a = true;
  coll_sym : forall a b, coll_eq a b = coll_eq b a;
  coll_trans : forall a b c, coll_eq a b = true -> coll_eq b c = true -> coll_eq a c = true }.

Fixpoint drop_spaces (l : list ascii) : list ascii :=
  match l with
  | c :: r => if Ascii.eqb c " "%char then drop_spaces r else l
  | [] => []
  end.

(** the padding rule: a value without its trailing spaces *)
Definition rtrim_spaces (s : string) : string :=
  string_of_list_ascii (rev (drop_spaces (rev (list_ascii_of_string s)))).

(** A binary collation ([Latin1_General_BIN2]). *)
#[export] Instance binary_collation : Collation :=
  fun a b => String.eqb (rtrim_spaces a) (rtrim_spaces b).

Record Bag := mkBag { name : string; scanned : bool }.

(** [None]: no table [bags] exists. *)
Definition DB := option (list Bag).

Inductive Stmt := DropIfExists | CreateBags | InsertBag (n : string).

Definition exec_stmt `{Collation} (s : Stmt) (db : DB) : string + DB :=
  match s with
  | DropIfExists => inr None
  | CreateBags =>
      match db with
      | Some _ => inl "There is already an object named 'bags' in the database."
      | None => inr (Some [])
      end
  | InsertBag n =>
      match db with
      | None => inl "Invalid object name 'bags'."
      | Some t =>
          if 200 <? String.length n then
            inl "String or binary data would be truncated."
          else if existsb (fun b => coll_eq (name b) n) t then
            inl "Violation of PRIMARY KEY constraint."
          else inr (Some (app t [mkBag n false]))
      end
  end.

(** [with engine.begin() as conn:] runs the statements in one transaction.
    [fault = Some i] makes the store fail at the [i]-th statement, or at the
    commit when [i] is the number of statements.  Any failure rolls back:
    the caller keeps the old table. *)
Definition fault_at (fault : option nat) (i : nat) : bool :=
  match fault with Some j => Nat.eqb j i | None => false end.

Fixpoint run_tx `{Collation} (i : nat) (fault : option nat) (ss : list Stmt) (db : DB)
  : string + DB :=
  match ss with
  | [] => if fault_at fault i then inl "commit failed" else inr db
  | s :: rest =>
      if fault_at fault i then inl "store unavailable"
      else match exec_stmt s db with
           | inl e => inl e
           | inr db' => run_tx (S i) fault rest db'
           end
  end.

(** ** Process state: the store and the module-level fallback lists *)

Record State := mkState {
  db : DB;
  bag_list : list string;
  scanned_bags : list string }.

Definition init_state : State := mkState None [] [].

(** ** [POST /import-data] (lines 53-113) *)

Inductive Source :=
| SrcMissing                (* [os.path.exists] is false *)
| SrcUnreadable (e : string) (* [pd.read_excel] raises *)
| SrcSheet (sh : Sheet).

Definition rebuild_stmts (names : list string) : list Stmt :=
  DropIfExists :: CreateBags :: map InsertBag names.

(** Everything up to the store: columns, [dropna], [Category], [Rush]. *)
Definition import_frame (src : Source) : string + list ClassRow :=
  match src with
  | SrcMissing => inl "Excel not found"
  | SrcUnreadable e => inl e
  | SrcSheet sh =>
      match frame_of_sheet sh with
      | inl e => inl e
      | inr rows => inr (classify_frame rows)
      end
  end.

(** [df["Customer Name"]] *)
Definition frame_names (frame : list ClassRow) : list string :=
  map (fun cr => r_customer (c_row cr)) frame.

Definition import_data `{Collation} (xlsx_path : string) (src : Source) (fault : option nat)
    (st : State) : Response * State :=
  match src with
  | SrcMissing => (err 500 ("Excel not found at " ++ xlsx_path), st)
  | _ =>
      match import_frame src with
      | inl e => (err 500 e, st)
      | inr frame =>
          let names := frame_names frame in
          match run_tx 0 fault (rebuild_stmts names) (db st) with
          | inl e => (err 500 e, st)
          | inr db' =>
              (Resp 200 [("message",
                 JStr ("Imported " ++ nat_to_string (length names) ++ " bags"))],
               mkState db' names [])
          end
      end
  end.

(** ** [GET /bags] (lines 35-50)

    [SELECT name, scanned FROM bags] has no [ORDER BY]: the order of the
    rows is the store's choice, given here by [order]. *)

Definition get_bags (order : list Bag -> list Bag) (up : bool) (st : State) : Response :=
  match up, db st with
  | true, Some t =>
      Resp 200 [("bags", JList (map (fun b =>
        JObj [("name", JStr (name b)); ("scanned", JBool (scanned b))]) (order t)))]
  | _, _ =>
      (* [except Exception:] fallback to the in-memory lists *)
      Resp 200 [("bags", JList (map (fun n =>
        JObj [("name", JStr n);
              ("scanned", JBool (existsb (String.eqb n) (scanned_bags st)))])
        (bag_list st)))]
  end.

(** ** [GET /status] (lines 116-130)

    [up] says whether the store answers; a missing table also makes the
    queries raise. *)
Definition status (up : bool) (st : State) : Response :=
  match up, db st with
  | true, Some t =>
      let total := Z.of_nat (length t) in
      let sc := Z.of_nat (length (filter scanned t)) in
      Resp 200 [("total", JInt total); ("scanned", JInt sc);
                ("remaining", JInt (total - sc))]
  | _, _ =>
      let remaining := filter (fun n => negb (existsb (String.eqb n) (scanned_bags st)))
                         (bag_list st) in
      Resp 200 [("total", JInt (Z.of_nat (length (bag_list st))));
                ("scanned", JInt (Z.of_nat (length (scanned_bags st))));
                ("remaining", JInt (Z.of_nat (length remaining)))]
  end.

(** ** [POST /scan] (lines 133-153)

    [key] is [data.get("name")]: [None] when the body has no name.  The
    handler has no [try]: a store failure escapes as an exception, and the
    transaction has not written anything at that point. *)
Definition mark_scanned `{Collation} (n : string) (t : list Bag) : list Bag :=
  map (fun b => if coll_eq (name b) n then mkBag (name b) true else b) t.

Definition scan `{Collation} (key : option string) (up : bool) (st : State) : Response * State :=
  let n := Py.strip (match key with Some k => k | None => "" end) in
  if String.eqb n "" then (err 400 "No name provided.", st)
  else if negb up then (Crash "OperationalError", st)
  else
    match db st with
    | None => (Crash "ProgrammingError: Invalid object name 'bags'.", st)
    | Some t =>
        match filter (fun b => coll_eq (name b) n) t with
        | [] => (err 400 (n ++ " is not in list."), st)
        | b :: _ =>
            if scanned b then (err 400 (n ++ " already scanned."), st)
            else (Resp 200 [("message", JStr (n ++ " scanned successfully!"))],
                  mkState (Some (mark_scanned n t)) (bag_list st) (scanned_bags st))
        end
    end.

(** ** [POST /api/ocr] (lines 156-185)

    The recognition service is an input: the reply to the submit request
    and the reply to the [i]-th poll, either the exception raised by
    [requests.get(...).json()] or the decoded JSON value. *)

Inductive PostReply :=
| PostRaises (exc : string)          (* [requests.post] raises *)
| PostResp (code : Z) (text : string) (op_loc : option string).

(** [d.get(k)] on a decoded JSON object: the last binding of [k] wins. *)
Definition py_get (o : list (string * JVal)) (k : string) : option JVal :=
  fold_left (fun acc kv => if String.eqb (fst kv) k then Some (snd kv) else acc) o None.

Definition err_no_get : string := "AttributeError: object has no attribute 'get'".

(** [v.get(k, default)] *)
Definition py_dict_get (v : JVal) (k : string) (default : JVal) : string + JVal :=
  match v with
  | JObj o => inr (match py_get o k with Some x => x | None => default end)
  | _ => inl err_no_get
  end.

(** [v[k]] with a string key *)
Definition py_getitem (v : JVal) (k : string) : string + JVal :=
  match v with
  | JObj o => match py_get o k with Some x => inr x | None => inl ("KeyError: '" ++ k ++ "'") end
  | JStr _ => inl "TypeError: string indices must be integers"
  | JList _ => inl "TypeError: list indices must be integers or slices, not str"
  | _ => inl "TypeError: object is not subscriptable"
  end.

(** [for x in v] *)
Definition py_iter (v : JVal) : string + list JVal :=
  match v with
  | JList l => inr l
  | JObj o => inr (map (fun kv => JStr (fst kv)) o)
  | JStr s => inr (map (fun c => JStr (String c EmptyString)) (list_ascii_of_string s))
  | _ => inl "TypeError: object is not iterable"
  end.

Definition bind_exc {A B} (m : string + A) (f : A -> string + B) : string + B :=
  match m with inl e => inl e | inr a => f a end.

Fixpoint traverse_exc {A B} (f : A -> string + B) (l : list A) : string + list B :=
  match l with
  | [] => inr []
  | x :: r => bind_exc (f x) (fun y => bind_exc (traverse_exc f r) (fun ys => inr (y :: ys)))
  end.

(** [[ln["text"] for p in analyze.get("readResults", []) for ln in p.get("lines", [])]] *)
Definition read_lines (analyze : JVal) : string + list JVal :=
  bind_exc (py_dict_get analyze "readResults" (JList [])) (fun rr =>
  bind_exc (py_iter rr) (fun ps =>
  bind_exc (traverse_exc (fun p =>
              bind_exc (py_dict_get p "lines" (JList [])) (fun ls =>
              bind_exc (py_iter ls) (fun lns =>
              traverse_exc (fun ln => py_getitem ln "text") lns))) ps) (fun xss =>
  inr (concat xss)))).

(** [j.get("status") == "succeeded"] on a JSON object *)
Definition status_succeeded (o : list (string * JVal)) : bool :=
  match py_get o "status" with Some (JStr s) => String.eqb s "succeeded" | _ => false end.

Inductive PollOutcome :=
| PollDone (analyze : JVal)   (* [break] with [analyze = j["analyzeResult"]] *)
| PollFail (exc : string)     (* an exception escapes the loop *)
| PollTimeout.                (* the [else] branch of the [for] *)

Fixpoint poll_loop (poll : nat -> string + JVal) (i fuel : nat) : PollOutcome :=
  match fuel with
  | 0 => PollTimeout
  | S f =>
      match poll i with
      | inl e => PollFail e
      | inr (JObj o) =>
          if status_succeeded o then
            match py_get o "analyzeResult" with
            | Some a => PollDone a
            | None => PollFail "KeyError: 'analyzeResult'"
            end
          else poll_loop poll (S i) f
      | inr _ => PollFail err_no_get
      end
  end.

Definition ocr (has_image : bool) (post : PostReply) (poll : nat -> string + JVal)
  : Response :=
  if negb has_image then err 400 "No image uploaded"
  else
    match post with
    | PostRaises e => Crash e
    | PostResp code text op_loc =>
        if negb (Z.eqb code 200 || Z.eqb code 202) then
          Resp 500 [("error", JStr "Read API failed"); ("details", JStr text)]
        else
          match op_loc with
          | None | Some "" => err 500 "Missing Operation-Location"
          | Some _ =>
              match poll_loop poll 0 15 with
              | PollTimeout => err 500 "Timeout polling OCR"
              | PollFail e => Crash e
              | PollDone analyze =>
                  match read_lines analyze with
                  | inl e => Crash e
                  | inr lines =>
                      (* [customer] and [order_type] are never assigned *)
                      let _ := lines in
                      Crash "NameError: name 'customer' is not defined"
                  end
              end
          end
    end.

(** ** Reachable states

    The handlers that change the state are import and scan; each call takes
    its own view of the store ([fault], [up]). *)
Inductive step `{Collation} : State -> State -> Prop :=
| step_import p src fault st : step st (snd (import_data p src fault st))
| step_scan key up st : step st (snd (scan key up st)).

Inductive reachable `{Collation} : State -> Prop :=
| reach_init : reachable init_state
| reach_step st st' : reachable st -> step st st' -> reachable st'.

(** * Lemmas *)

Lemma string_of_list_ascii_of_string s :
  string_of_list_ascii (list_ascii_of_string s) = s.
Proof. induction s; simpl; congruence. Qed.

Lemma lstrip_l_nospace l :
  Forall (fun c => Py.isdigit_char c = true) l -> Py.lstrip_l l = l.
Proof.
  intros H; destruct l as [|c r]; [reflexivity|].
  inversion H as [|? ? Hc _]; subst; simpl.
  destruct (Py.isspace c) eqn:Hs; [|reflexivity].
  exfalso; revert Hc Hs; unfold Py.isdigit_char, Py.isdecimal_char, Py.isspace.
  generalize (nat_of_ascii c); intros n Hc Hs.
  repeat rewrite orb_true_iff in Hc; repeat rewrite orb_true_iff in Hs.
  repeat rewrite andb_true_iff in Hc; repeat rewrite andb_true_iff in Hs.
  repeat rewrite Nat.leb_le in Hc; repeat rewrite Nat.leb_le in Hs.
  repeat rewrite Nat.eqb_eq in Hc; repeat rewrite Nat.eqb_eq in Hs.
  lia.
Qed.

(** A string of digits has no surrounding blanks. *)
Lemma strip_digits d : Py.isdigit d = true -> Py.strip d = d.
Proof.
  unfold Py.isdigit, Py.strip; intros H.
  assert (Hf : Forall (fun c => Py.isdigit_char c = true) (list_ascii_of_string d)).
  { destruct (list_ascii_of_string d); [discriminate|].
    apply Forall_forall; intros x Hx; apply forallb_forall with (x := x) in H; auto. }
  rewrite (lstrip_l_nospace _ Hf), lstrip_l_nospace, rev_involutive
    by (apply Forall_rev; exact Hf).
  apply string_of_list_ascii_of_string.
Qed.

Lemma existsb_eqb_In (x : string) l : existsb (String.eqb x) l = true <-> In x l.
Proof.
  rewrite existsb_exists; split.
  - intros (y & Hy & E); apply String.eqb_eq in E; subst; auto.
  - intros H; exists x; split; auto; apply String.eqb_refl.
Qed.

(** * Claims *)

(** C1 (counterexample): the weight "20" is a positive integer, yet
    [classify_service] puts it in HangDry, not WashAndFold. *)
Lemma C1_counterexample : classify_service (Some "20") <> WashAndFold.
Proof. vm_compute; discriminate. Qed.

(** C1 (amended): the category is decided on [s = str(v).strip()]: when
    [s.isdigit()] holds (a non-empty run of digits, such as "20", " 20 " or
    "0"; Python's [isdigit] also accepts the superscript digits) the row is
    HangDry, so in particular every string of digits is; an empty cell,
    whose text is "nan", gives WashAndFold; any other text gives WashAndFold
    when [float(s)] succeeds and otherwise when it contains "lbs" in any
    case, HangDry when it does not. *)
Theorem classify_service_rule :
  (forall v, Py.isdigit (Py.strip (str_cell v)) = true -> classify_service v = HangDry) /\
  (forall d, Py.isdigit d = true -> classify_service (Some d) = HangDry) /\
  classify_service None = WashAndFold /\
  (forall s, Py.isdigit (Py.strip s) = false -> Py.float_ok (Py.strip s) = true ->
     classify_service (Some s) = WashAndFold) /\
  (forall s, Py.isdigit (Py.strip s) = false -> Py.float_ok (Py.strip s) = false ->
     classify_service (Some s) =
       if Py.contains (Py.lower (Py.strip s)) "lbs" then WashAndFold else HangDry).
Proof.
  split; [|split; [|split; [|split]]].
  - intros v H; unfold classify_service; rewrite H; reflexivity.
  - intros d H; unfold classify_service; simpl; rewrite strip_digits, H; auto.
  - vm_compute; reflexivity.
  - intros s H1 H2; unfold classify_service; simpl; rewrite H1, H2; reflexivity.
  - intros s H1 H2; unfold classify_service; simpl; rewrite H1, H2; reflexivity.
Qed.

Lemma C1_witness :
  Py.isdigit (Py.strip " 20 ") = true /\ classify_service (Some " 20 ") = HangDry /\
  Py.isdigit "20" = true /\ classify_service (Some "20") = HangDry /\
  classify_service (Some "2.5") = WashAndFold /\
  classify_service (Some "20 lbs") = WashAndFold /\
  classify_service (Some "hang dry") = HangDry.
Proof.
  destruct classify_service_rule as (Hv & Hd & _ & Hf & Hl).
  split; [vm_compute; reflexivity|].
  split; [apply (Hv (Some " 20 ")); vm_compute; reflexivity|].
  split; [reflexivity|]. split; [apply Hd; reflexivity|].
  split; [apply Hf; vm_compute; reflexivity|].
  split; [rewrite Hl by (vm_compute; reflexivity); vm_compute; reflexivity|].
  rewrite Hl by (vm_compute; reflexivity); vm_compute; reflexivity.
Defined.

(** The rush flag of one frame row, in the words of the rule. *)
Definition rush_rule (rows : list Row) (r : Row) (cr : ClassRow) : Prop :=
  c_row cr = r /\
  (c_rush cr = true <->
   Rush.has_today (r_date r) = true \/
   exists r', In r' rows /\ Rush.has_today (r_date r') = true /\
              actual_date r' = actual_date r).

Lemma classify_frame_rush_aux rows l :
  incl l rows ->
  Forall2 (rush_rule rows) l
    (map (fun r => mkClassRow r (classify_service (r_wf r)) (actual_date r)
                     (existsb (String.eqb (actual_date r)) (rush_days rows))) l).
Proof.
  induction l as [|r l IH]; intros Hincl; simpl; constructor.
  - split; [reflexivity|]; simpl.
    rewrite existsb_eqb_In; unfold rush_days; rewrite in_map_iff.
    split.
    + intros (r' & Ea & Hr'); apply filter_In in Hr' as [Hin Ht].
      right; exists r'; auto.
    + intros [Ht | (r' & Hin & Ht & Ea)].
      * exists r; split; auto; apply filter_In; split; auto; apply Hincl; left; auto.
      * exists r'; split; auto; apply filter_In; auto.
  - apply IH; intros x Hx; apply Hincl; right; auto.
Qed.

Definition sheet_7_1 : Sheet :=
  mkSheet ["Date"; "Customer Name"; "WF LBS"]
    [[Some "7/1 TODAY"; Some "Ann"; Some "12"];
     [Some "7/1"; Some "Bob"; Some "8"];
     [Some "7/2"; Some "Cy"; None]].

(** C6: every row of the imported frame is rush exactly when its own date
    cell carries "TODAY" or its date with the token removed equals that of
    a row which carries it; on the dates "7/1 TODAY", "7/1", "7/2" the rush
    flags are true, true, false. *)
Theorem classify_frame_rush :
  (forall rows, Forall2 (rush_rule rows) rows (classify_frame rows)) /\
  option_map (map c_rush) (match import_frame (SrcSheet sheet_7_1) with
                           | inr f => Some f | inl _ => None end)
  = Some [true; true; false].
Proof.
  split.
  - intros rows; apply classify_frame_rush_aux, incl_refl.
  - vm_compute; reflexivity.
Qed.

(** ** The rebuild transaction *)

Definition fresh_bag (n : string) : Bag := mkBag n false.

(** Names that are pairwise different under the collation: what the
    primary key enforces. *)
Definition keys_distinct `{Collation} (l : list string) : Prop :=
  ForallOrdPairs (fun a b => coll_eq a b = false) l.

#[export] Instance binary_collation_equiv : CollationEquiv (H := binary_collation).
Proof.
  split; unfold coll_eq, binary_collation.
  - intros a; apply String.eqb_refl.
  - intros a b; apply String.eqb_sym.
  - intros a b c E1 E2; apply String.eqb_eq in E1, E2; rewrite E1, E2;
      apply String.eqb_refl.
Qed.

Lemma ForallOrdPairs_snoc {A} (R : A -> A -> Prop) l x :
  ForallOrdPairs R l -> Forall (fun y => R y x) l -> ForallOrdPairs R (app l [x]).
Proof.
  induction l as [|a l IH]; intros H1 H2; simpl.
  - constructor; constructor.
  - inversion H1 as [|? ? Ha Hl]; inversion H2 as [|? ? Hax Hlx]; subst.
    constructor; [apply Forall_app; split; auto|]; auto.
Qed.

Lemma ForallOrdPairs_elt {A} (R : A -> A -> Prop) pre a post :
  ForallOrdPairs R (app pre (a :: post)) -> Forall (R a) post.
Proof.
  induction pre as [|x pre IH]; simpl; intros H; inversion H; subst; auto.
Qed.

Lemma existsb_coll_false {C : Collation} n t :
  existsb (fun b => coll_eq (name b) n) t = false ->
  Forall (fun x => coll_eq x n = false) (map name t).
Proof.
  induction t as [|b t IH]; simpl; intros H0; constructor;
    apply orb_false_iff in H0 as [H1 H2]; auto.
Qed.

Lemma keys_distinct_NoDup {C : Collation} {CE : CollationEquiv} l : keys_distinct l -> NoDup l.
Proof.
  induction 1 as [|a l Ha _ IH]; constructor; auto.
  intros Hin; rewrite Forall_forall in Ha; specialize (Ha a Hin).
  rewrite coll_refl in Ha; discriminate.
Qed.

Lemma run_inserts_ok {C : Collation} i fault ns t db' :
  keys_distinct (map name t) ->
  run_tx i fault (map InsertBag ns) (Some t) = inr db' ->
  db' = Some (app t (map fresh_bag ns)) /\ keys_distinct (app (map name t) ns).
Proof.
  revert i t; induction ns as [|n ns IH]; intros i t Hnd H0; simpl in H0.
  - destruct (fault_at fault i); [discriminate|].
    injection H0 as <-; rewrite !app_nil_r; auto.
  - destruct (fault_at fault i); [discriminate|].
    destruct (200 <? String.length n); [discriminate|].
    destruct (existsb (fun b => coll_eq (name b) n) t) eqn:Ex; [discriminate|].
    assert (Hnd' : keys_distinct (map name (app t [mkBag n false]))).
    { rewrite map_app; simpl; apply ForallOrdPairs_snoc; auto.
      apply existsb_coll_false; exact Ex. }
    destruct (IH _ _ Hnd' H0) as [-> Hnd''].
    rewrite map_app, <- !app_assoc in Hnd''; simpl in Hnd''.
    rewrite <- app_assoc; split; auto.
Qed.

Lemma run_rebuild_ok {C : Collation} fault ns db0 db' :
  run_tx 0 fault (rebuild_stmts ns) db0 = inr db' ->
  db' = Some (map fresh_bag ns) /\ keys_distinct ns.
Proof.
  unfold rebuild_stmts; simpl.
  destruct (fault_at fault 0); [discriminate|].
  destruct (fault_at fault 1); [discriminate|].
  intros H0; apply run_inserts_ok in H0 as [-> Hnd]; [auto|constructor].
Qed.

(** The outcome of one import, as all-or-nothing. *)
Definition import_outcome `{Collation} (src : Source) (r : Response) (st st' : State) : Prop :=
  (exists e, r = err 500 e /\ st' = st) \/
  (exists frame, import_frame src = inr frame /\
     r = Resp 200 [("message", JStr ("Imported " ++
            nat_to_string (length (frame_names frame)) ++ " bags"))] /\
     st' = mkState (Some (map fresh_bag (frame_names frame))) (frame_names frame) []
     /\ keys_distinct (frame_names frame)).

Lemma import_data_outcome {C : Collation} p src fault st :
  import_outcome src (fst (import_data p src fault st)) st
    (snd (import_data p src fault st)).
Proof.
  unfold import_data.
  destruct src as [|e|sh]; [simpl; left; eauto| |].
  all: destruct (import_frame _) as [e'|frame] eqn:Hf; [simpl; left; eauto|].
  all: destruct (run_tx 0 fault _ (db st)) as [e'|db'] eqn:Hr; [simpl; left; eauto|].
  all: apply run_rebuild_ok in Hr as [-> Hnd]; right; exists frame;
       split; [exact Hf|]; simpl; auto.
Qed.

Definition sheet_one : Sheet :=
  mkSheet ["Date"; "Customer Name"; "WF LBS"] [[Some "7/1 TODAY"; Some "Ann"; Some "12"]].

(** C2 (counterexample): a successful import of one row answers only
    [{"message": "Imported 1 bags"}]; there is no rush, non-rush or
    hang-dry count in the reply. *)
Lemma C2_counterexample :
  fst (import_data "testrunrinse.xlsx" (SrcSheet sheet_one) None init_state)
    = Resp 200 [("message", JStr "Imported 1 bags")] /\
  has_key "rush" (fst (import_data "testrunrinse.xlsx" (SrcSheet sheet_one) None init_state))
    = false.
Proof. split; vm_compute; reflexivity. Qed.

(** C2 (amended): a successful import answers 200 with the single field
    [message = "Imported N bags"], N the number of rows kept (the new
    length of [bag_list]); no category or rush counts are returned. *)
Theorem import_success_reply {C : Collation} p src fault st body :
  fst (import_data p src fault st) = Resp 200 body ->
  body = [("message", JStr ("Imported " ++
            nat_to_string (length (bag_list (snd (import_data p src fault st))))
            ++ " bags"))].
Proof.
  intros Hr; destruct (import_data_outcome p src fault st) as
    [(e & Er & _) | (frame & _ & Er & Es & _)].
  - rewrite Hr in Er; discriminate.
  - rewrite Hr in Er; injection Er as ->; rewrite Es; reflexivity.
Qed.

Lemma C2_witness :
  fst (import_data "testrunrinse.xlsx" (SrcSheet sheet_one) None init_state)
    = Resp 200 [("message", JStr "Imported 1 bags")].
Proof.
  pose proof (import_success_reply "testrunrinse.xlsx" (SrcSheet sheet_one) None
                init_state [("message", JStr "Imported 1 bags")]) as H.
  vm_compute in H |- *; reflexivity.
Defined.

Definition sheet_dup : Sheet :=
  mkSheet ["Date"; "Customer Name"; "WF LBS"]
    [[Some "7/1"; Some "Ann"; Some "12"]; [Some "7/2"; Some "Ann"; Some "9"]].

(** C3 (counterexample): two rows for the customer "Ann" make the import
    fail with 500 and leave the state as it was. *)
Lemma C3_counterexample :
  import_data "testrunrinse.xlsx" (SrcSheet sheet_dup) None init_state
  = (err 500 "Violation of PRIMARY KEY constraint.", init_state).
Proof. vm_compute; reflexivity. Qed.

(** C3 (amended): [name] is the table's primary key, so whenever two kept
    rows carry the same customer name the import fails with 500, persists
    nothing and leaves the state unchanged. *)
Theorem import_duplicate_names_fail {C : Collation} {CE : CollationEquiv} p sh fault st frame :
  import_frame (SrcSheet sh) = inr frame ->
  ~ NoDup (frame_names frame) ->
  exists e, import_data p (SrcSheet sh) fault st = (err 500 e, st).
Proof.
  intros Hf Hnd.
  pose proof (import_data_outcome p (SrcSheet sh) fault st) as Ho.
  destruct (import_data p (SrcSheet sh) fault st) as [r s]; simpl in Ho.
  destruct Ho as [(e & -> & ->) | (frame' & Hf' & _ & _ & Hnd')]; [eauto|].
  rewrite Hf in Hf'; injection Hf' as <-; apply keys_distinct_NoDup in Hnd'.
  contradiction.
Qed.

Lemma C3_witness :
  exists e, import_data "testrunrinse.xlsx" (SrcSheet sheet_dup) None init_state
            = (err 500 e, init_state).
Proof.
  apply (import_duplicate_names_fail "testrunrinse.xlsx" sheet_dup None init_state
           (classify_frame (match frame_of_sheet sheet_dup with
                            | inr rows => rows | inl _ => [] end))).
  - vm_compute; reflexivity.
  - vm_compute; intros H; inversion H as [|x l Hn _]; apply Hn; left; reflexivity.
Defined.

(** C4: every import attempt either fails with 500 and leaves the store
    and both in-memory lists exactly as they were (missing or unreadable
    source, unresolvable columns, or any store failure, which rolls the
    transaction back), or succeeds and replaces them wholesale: the table
    holds exactly the kept rows, all unscanned, [bag_list] their names and
    [scanned_bags] is empty. *)
Theorem import_all_or_nothing {C : Collation} p src fault st :
  let '(r, st') := import_data p src fault st in
  (exists e, r = err 500 e /\ st' = st) \/
  (exists frame body, import_frame src = inr frame /\ r = Resp 200 body /\
     st' = mkState (Some (map fresh_bag (frame_names frame))) (frame_names frame) []).
Proof.
  pose proof (import_data_outcome p src fault st) as Ho.
  destruct (import_data p src fault st) as [r st']; simpl in Ho.
  destruct Ho as [He | (frame & Hf & -> & Es & _)]; [left; exact He|].
  right; exists frame, [("message", JStr ("Imported " ++
    nat_to_string (length (frame_names frame)) ++ " bags"))]; auto.
Qed.

(** ** Scan lemmas and the invariant of reachable states *)

Lemma mark_scanned_names {C : Collation} k t : map name (mark_scanned k t) = map name t.
Proof.
  induction t as [|b t IH]; simpl; [reflexivity|].
  destruct (coll_eq (name b) k); simpl; rewrite IH; reflexivity.
Qed.

Lemma mark_scanned_app {C : Collation} k l1 l2 :
  mark_scanned k (app l1 l2) = app (mark_scanned k l1) (mark_scanned k l2).
Proof. apply map_app. Qed.

Lemma mark_scanned_id {C : Collation} k l :
  (forall b, In b l -> coll_eq (name b) k = false) -> mark_scanned k l = l.
Proof.
  induction l as [|b l IH]; intros Hl; simpl; [reflexivity|].
  rewrite (Hl b (or_introl eq_refl)), IH; auto; intros b' Hb'; apply Hl; right; auto.
Qed.

Lemma filter_name_nil {C : Collation} k l :
  (forall b, In b l -> coll_eq (name b) k = false) ->
  filter (fun b => coll_eq (name b) k) l = [].
Proof.
  induction l as [|b l IH]; intros Hl; simpl; [reflexivity|].
  rewrite (Hl b (or_introl eq_refl)); apply IH; intros b' Hb'; apply Hl; right; auto.
Qed.

Lemma filter_name_head {C : Collation} k t b0 rest :
  filter (fun b => coll_eq (name b) k) t = b0 :: rest ->
  exists pre post, t = app pre (b0 :: post) /\ coll_eq (name b0) k = true /\
                   (forall b, In b pre -> coll_eq (name b) k = false).
Proof.
  induction t as [|b t IH]; simpl; [discriminate|].
  destruct (coll_eq (name b) k) eqn:E; intros Hf.
  - injection Hf as <- _; exists [], t; repeat split; auto; intros ? [].
  - destruct (IH Hf) as (pre & post & -> & Hn & Hpre).
    exists (b :: pre), post; split; [reflexivity|]; split; auto.
    intros b' [<-|Hb']; auto.
Qed.

(** With names distinct under the collation, the row a scan finds is the
    only one that matches the key, and the only one it touches. *)
Lemma scan_target {C : Collation} {CE : CollationEquiv} k t b0 rest :
  keys_distinct (map name t) ->
  filter (fun b => coll_eq (name b) k) t = b0 :: rest ->
  exists pre post, t = app pre (b0 :: post) /\ coll_eq (name b0) k = true /\
    (forall b, In b (app pre post) -> coll_eq (name b) k = false) /\
    mark_scanned k t = app pre (mkBag (name b0) true :: post).
Proof.
  intros Hnd Hf.
  destruct (filter_name_head _ _ _ _ Hf) as (pre & post & -> & Hn & Hpre).
  assert (Hpost : forall b, In b post -> coll_eq (name b) k = false).
  { unfold keys_distinct in Hnd; rewrite map_app in Hnd; simpl in Hnd.
    apply ForallOrdPairs_elt in Hnd; rewrite Forall_forall in Hnd.
    intros b Hb; destruct (coll_eq (name b) k) eqn:E; [|reflexivity].
    assert (E' : coll_eq (name b0) (name b) = true).
    { apply coll_trans with k; [exact Hn|]; rewrite coll_sym; exact E. }
    rewrite (Hnd (name b) (in_map name post b Hb)) in E'; discriminate. }
  assert (Hall : forall b, In b (app pre post) -> coll_eq (name b) k = false).
  { intros b Hb; apply in_app_or in Hb as [Hb|Hb]; auto. }
  exists pre, post; repeat split; auto.
  rewrite mark_scanned_app; simpl.
  rewrite !mark_scanned_id, Hn; auto.
Qed.

Definition state_inv `{Collation} (st : State) : Prop :=
  scanned_bags st = [] /\ (forall t, db st = Some t -> keys_distinct (map name t)).

Lemma scan_cases {C : Collation} key up st :
  snd (scan key up st) = st \/
  exists t, db st = Some t /\
    snd (scan key up st) =
      mkState (Some (mark_scanned (Py.strip (match key with Some k => k | None => "" end)) t))
        (bag_list st) (scanned_bags st).
Proof.
  unfold scan; cbv beta iota zeta.
  destruct (String.eqb _ ""); [left; reflexivity|].
  destruct up; [|left; reflexivity]; simpl negb; cbv iota.
  destruct (db st) as [t|]; [|left; reflexivity].
  destruct (filter _ t) as [|b rest]; [left; reflexivity|].
  destruct (scanned b); [left; reflexivity|]; right; exists t; auto.
Qed.

Lemma reachable_inv {C : Collation} st : reachable st -> state_inv st.
Proof.
  induction 1 as [|st st' _ [Hsb Hnd] Hstep].
  - split; [reflexivity|]; discriminate.
  - destruct Hstep as [p src fault st|key up st].
    + pose proof (import_data_outcome p src fault st) as Ho.
      destruct (import_data p src fault st) as [r s]; simpl in *.
      destruct Ho as [(e & _ & ->) | (frame & _ & _ & -> & Hn)]; [split; auto|].
      split; [reflexivity|]; simpl; intros t Ht; injection Ht as <-.
      rewrite map_map; simpl; rewrite map_id; exact Hn.
    + destruct (scan_cases key up st) as [-> | (t & Ht & ->)]; [split; auto|].
      split; [exact Hsb|]; simpl; intros t' Ht'; injection Ht' as <-.
      rewrite mark_scanned_names; auto.
Qed.

Definition sheet_jane : Sheet :=
  mkSheet ["Date"; "Customer Name"; "WF LBS"]
    [[Some "7/1 TODAY"; Some "Jane"; Some "12"]; [Some "7/2"; Some "Bob"; None]].

Definition st_jane : State :=
  snd (import_data "testrunrinse.xlsx" (SrcSheet sheet_jane) None init_state).

Lemma st_jane_reachable : reachable st_jane.
Proof. eapply reach_step; [apply reach_init | apply step_import]. Qed.

Lemma st_jane_db :
  db st_jane = Some [mkBag "Jane" false; mkBag "Bob" false].
Proof. vm_compute; reflexivity. Qed.

(** C5 (counterexample): the table holds "Jane" and "Bob"; the key
    " Jane " matches no row, not even under the store's comparison (a
    leading space counts), yet scanning it succeeds and marks "Jane". *)
Lemma C5_counterexample :
  db st_jane = Some [mkBag "Jane" false; mkBag "Bob" false] /\
  ~ In " Jane " ["Jane"; "Bob"] /\
  existsb (fun b => coll_eq (name b) " Jane ") [mkBag "Jane" false; mkBag "Bob" false]
    = false /\
  fst (scan (Some " Jane ") true st_jane)
    = Resp 200 [("message", JStr "Jane scanned successfully!")] /\
  snd (scan (Some " Jane ") true st_jane) <> st_jane.
Proof.
  split; [vm_compute; reflexivity|].
  split; [simpl; intros [H|[H|[]]]; discriminate|].
  split; [vm_compute; reflexivity|].
  split; [vm_compute; reflexivity|].
  vm_compute; intros H; discriminate.
Qed.

(** C5 (amended): with [k] the request key after [strip()], and names
    compared as the store compares them (its collation: trailing spaces
    never count, case does not count under a case-insensitive collation):
    an empty [k] fails with "No name provided." and changes nothing; with
    the store up, a [k] that matches no row of the table fails with
    "<k> is not in list." and changes nothing; in a reachable state, a [k]
    matching an unscanned row is scanned by the first request, which
    answers "<k> scanned successfully!", while the second answers
    "<k> already scanned." and changes nothing, and the number of scanned
    rows grows by exactly one. *)
Theorem scan_contract {C : Collation} {CE : CollationEquiv} st t raw :
  (Py.strip raw = "" -> forall up, scan (Some raw) up st = (err 400 "No name provided.", st)) /\
  (db st = Some t -> Py.strip raw <> "" ->
   (forall b, In b t -> coll_eq (name b) (Py.strip raw) = false) ->
     scan (Some raw) true st = (err 400 (Py.strip raw ++ " is not in list."), st)) /\
  (reachable st -> db st = Some t -> Py.strip raw <> "" ->
   (exists b, In b t /\ coll_eq (name b) (Py.strip raw) = true /\ scanned b = false) ->
     fst (scan (Some raw) true st)
       = Resp 200 [("message", JStr (Py.strip raw ++ " scanned successfully!"))] /\
     scan (Some raw) true (snd (scan (Some raw) true st))
       = (err 400 (Py.strip raw ++ " already scanned."), snd (scan (Some raw) true st)) /\
     exists t1, db (snd (scan (Some raw) true st)) = Some t1 /\
       length (filter scanned t1) = S (length (filter scanned t))).
Proof.
  unfold scan; cbv beta iota zeta.
  set (k := Py.strip raw).
  split; [intros Hk up; rewrite Hk; reflexivity|].
  split.
  - intros Ht Hk Hno; apply String.eqb_neq in Hk; rewrite Hk; simpl negb; cbv iota.
    rewrite Ht, filter_name_nil; auto.
  - intros Hr Ht Hk (b & Hb & Hbn & Hbs).
    destruct (reachable_inv st Hr) as [_ Hnd]; specialize (Hnd t Ht).
    apply String.eqb_neq in Hk; rewrite Hk; simpl negb; cbv iota; rewrite Ht.
    destruct (filter (fun b => coll_eq (name b) k) t) as [|b0 rest] eqn:Hf.
    { assert (Hin : In b (filter (fun b => coll_eq (name b) k) t))
        by (apply filter_In; split; auto).
      rewrite Hf in Hin; destruct Hin. }
    destruct (scan_target _ _ _ _ Hnd Hf) as (pre & post & Et & Hn & Hall & Hm).
    assert (Hb0 : b = b0).
    { rewrite Et in Hb; apply in_elt_inv in Hb as [|Hb]; auto.
      rewrite (Hall b Hb) in Hbn; discriminate. }
    subst b0; rewrite Hbs; simpl; split; [reflexivity|]; split.
    + rewrite Hm, filter_app, filter_name_nil by (intros b' Hb'; apply Hall, in_or_app; auto).
      simpl; rewrite Hn; reflexivity.
    + exists (mark_scanned k t); split; [reflexivity|].
      rewrite Hm, Et, !filter_app, !length_app; simpl; rewrite Hbs; simpl; lia.
Qed.

Lemma C5_witness :
  fst (scan (Some "Jane") true st_jane)
    = Resp 200 [("message", JStr "Jane scanned successfully!")].
Proof.
  destruct (scan_contract st_jane [mkBag "Jane" false; mkBag "Bob" false] "Jane")
    as (_ & _ & H3).
  destruct (H3 st_jane_reachable st_jane_db) as (H1 & _).
  - vm_compute; discriminate.
  - exists (mkBag "Jane" false); split; [left; reflexivity|]; split; reflexivity.
  - exact H1.
Defined.

(** C10: in a reachable state, a successful scan changes exactly one row,
    the one whose name matches the stripped key under the store's
    collation (no other row matches it), from unscanned to scanned; its
    name, every other row and both in-memory lists are left unchanged. *)
Theorem scan_frame_effect {C : Collation} {CE : CollationEquiv} st raw up body :
  reachable st -> fst (scan (Some raw) up st) = Resp 200 body ->
  exists pre b post,
    db st = Some (app pre (b :: post)) /\ coll_eq (name b) (Py.strip raw) = true /\
    scanned b = false /\
    (forall b', In b' (app pre post) -> coll_eq (name b') (Py.strip raw) = false) /\
    snd (scan (Some raw) up st) =
      mkState (Some (app pre (mkBag (name b) true :: post)))
        (bag_list st) (scanned_bags st).
Proof.
  intros Hr; destruct (reachable_inv st Hr) as [_ Hnd].
  unfold scan; cbv beta iota zeta; set (k := Py.strip raw).
  destruct (String.eqb k ""); [discriminate|].
  destruct up; [|discriminate]; simpl negb; cbv iota.
  destruct (db st) as [t|] eqn:Ht; [|discriminate].
  destruct (filter (fun b => coll_eq (name b) k) t) as [|b rest] eqn:Hf;
    [discriminate|].
  destruct (scanned b) eqn:Hbs; [discriminate|]; intros _.
  destruct (scan_target _ _ _ _ (Hnd t eq_refl) Hf)
    as (pre & post & Et & Hn & Hall & Hm).
  exists pre, b, post; repeat split; auto.
  - rewrite Et; reflexivity.
  - simpl; rewrite Hm; reflexivity.
Qed.

Lemma C10_witness :
  exists pre b post,
    db st_jane = Some (app pre (b :: post)) /\ coll_eq (name b) (Py.strip "Bob") = true /\
    scanned b = false /\
    (forall b', In b' (app pre post) -> coll_eq (name b') (Py.strip "Bob") = false) /\
    snd (scan (Some "Bob") true st_jane) =
      mkState (Some (app pre (mkBag (name b) true :: post)))
        (bag_list st_jane) (scanned_bags st_jane).
Proof.
  apply (scan_frame_effect st_jane "Bob" true
           [("message", JStr "Bob scanned successfully!")] st_jane_reachable).
  vm_compute; reflexivity.
Defined.

(** ** Status *)

Lemma status_fallback_remaining l :
  filter (fun n => negb (existsb (String.eqb n) [])) l = l.
Proof. induction l as [|x l IH]; [reflexivity|]; cbn [filter existsb negb]; f_equal; exact IH. Qed.

(** C8: in every reachable state (any imports and scans, each with the
    store up or down), [GET /status] answers [total], [scanned] and
    [remaining] with [remaining = total - scanned], whether it reads the
    table or falls back to the in-memory lists. *)
Theorem status_remaining {C : Collation} st up :
  reachable st ->
  exists total sc,
    status up st = Resp 200 [("total", JInt total); ("scanned", JInt sc);
                             ("remaining", JInt (total - sc))].
Proof.
  intros Hr; destruct (reachable_inv st Hr) as [Hsb _].
  unfold status.
  destruct up, (db st) as [t|]; eauto;
    rewrite Hsb, status_fallback_remaining; simpl;
    exists (Z.of_nat (length (bag_list st))), 0%Z; rewrite Z.sub_0_r; reflexivity.
Qed.

Lemma C8_witness :
  exists total sc,
    status false st_jane = Resp 200 [("total", JInt total); ("scanned", JInt sc);
                                     ("remaining", JInt (total - sc))].
Proof. apply (status_remaining st_jane false st_jane_reachable). Defined.

(** ** Error reporting *)




(** ** OCR *)

Definition jane_poll (i : nat) : string + JVal :=
  inr (JObj [("status", JStr "succeeded");
             ("analyzeResult", JObj [("readResults", JList [JObj [("lines", JList
               [JObj [("text", JStr "JANE")]; JObj [("text", JStr "DOE LAUNDRY")];
                JObj [("text", JStr "HANG DRY")]])]])])]).

(** C7 (code bug): whatever the recognition service answers, [POST /api/ocr]
    never replies with a [name]: after collecting the lines it reads the
    unassigned [customer] and raises [NameError].  With the lines "JANE",
    "DOE LAUNDRY", "HANG DRY" it crashes instead of answering "Jane Doe". *)
Theorem ocr_never_resolves_name :
  (forall has_image post poll, has_key "name" (ocr has_image post poll) = false) /\
  ocr true (PostResp 202 "" (Some "https://example/operations/1")) jane_poll
    = Crash "NameError: name 'customer' is not defined".
Proof.
  split; [|reflexivity].
  intros has_image post poll; unfold ocr.
  destruct has_image; [|reflexivity]; simpl negb; cbv iota.
  destruct post as [e|code text op_loc]; [reflexivity|].
  destruct (negb (Z.eqb code 200 || Z.eqb code 202)); [reflexivity|].
  destruct op_loc as [[|c s]|]; try reflexivity.
  all: destruct (poll_loop poll 0 15) as [a|e|]; try reflexivity.
  all: destruct (read_lines a); reflexivity.
Qed.

(** * Further properties of [app.py] *)

(** ** The rush token and [re.sub] *)

Lemma lower_upper_t c : Ascii.eqb "t" (Py.lower_char c) = Ascii.eqb "T" (Py.upper_char c).
Proof. destruct c as [[] [] [] [] [] [] [] []]; reflexivity. Qed.
Lemma lower_upper_o c : Ascii.eqb "o" (Py.lower_char c) = Ascii.eqb "O" (Py.upper_char c).
Proof. destruct c as [[] [] [] [] [] [] [] []]; reflexivity. Qed.
Lemma lower_upper_d c : Ascii.eqb "d" (Py.lower_char c) = Ascii.eqb "D" (Py.upper_char c).
Proof. destruct c as [[] [] [] [] [] [] [] []]; reflexivity. Qed.
Lemma lower_upper_a c : Ascii.eqb "a" (Py.lower_char c) = Ascii.eqb "A" (Py.upper_char c).
Proof. destruct c as [[] [] [] [] [] [] [] []]; reflexivity. Qed.
Lemma lower_upper_y c : Ascii.eqb "y" (Py.lower_char c) = Ascii.eqb "Y" (Py.upper_char c).
Proof. destruct c as [[] [] [] [] [] [] [] []]; reflexivity. Qed.

Lemma upper_T_not_space c : Ascii.eqb "T" (Py.upper_char c) = true -> Py.isspace c = false.
Proof. destruct c as [[] [] [] [] [] [] [] []]; first [reflexivity | discriminate]. Qed.

Definition TODAY_l : list ascii := ["T"; "O"; "D"; "A"; "Y"]%char.

(** The regular expression's case-insensitive "today" is the upper-cased
    "TODAY" of [has_today]. *)
Lemma prefix_today_upper l :
  Py.prefix_l (list_ascii_of_string "today") (map Py.lower_char l)
  = Py.prefix_l TODAY_l (map Py.upper_char l).
Proof.
  destruct l as [|c1 [|c2 [|c3 [|c4 [|c5 r]]]]];
    cbn [Py.prefix_l map list_ascii_of_string TODAY_l];
    rewrite ?lower_upper_t, ?lower_upper_o, ?lower_upper_d, ?lower_upper_a,
      ?lower_upper_y; reflexivity.
Qed.

Lemma lstrip_l_suffix l : exists pre, l = app pre (Py.lstrip_l l).
Proof.
  induction l as [|c r IH]; simpl; [exists []; reflexivity|].
  destruct (Py.isspace c); [|exists []; reflexivity].
  destruct IH as [pre E]; exists (c :: pre); simpl; congruence.
Qed.

Lemma lstrip_l_length l : length (Py.lstrip_l l) <= length l.
Proof.
  induction l as [|c r IH]; simpl; [lia|].
  destruct (Py.isspace c); simpl; lia.
Qed.

Lemma prefix_contains_l p l : Py.prefix_l p l = true -> Py.contains_l l p = true.
Proof. destruct l; simpl; intros ->; reflexivity. Qed.

Lemma contains_l_app pre l p :
  Py.contains_l l p = true -> Py.contains_l (app pre l) p = true.
Proof.
  induction pre as [|c pre IH]; simpl; auto.
  intros H; rewrite IH by exact H; apply orb_true_r.
Qed.

Lemma prefix_l_length p l : Py.prefix_l p l = true -> length p <= length l.
Proof.
  revert l; induction p as [|a p IH]; intros [|b l]; simpl; try lia; try discriminate.
  intros H; apply andb_prop in H as [_ H]; apply IH in H; lia.
Qed.

Lemma match_today_some l rest :
  Rush.match_today l = Some rest ->
  Py.contains_l (map Py.upper_char l) TODAY_l = true /\ length rest + 5 <= length l.
Proof.
  unfold Rush.match_today; rewrite prefix_today_upper.
  destruct (Py.prefix_l TODAY_l (map Py.upper_char (Py.lstrip_l l))) eqn:Hp;
    [|discriminate].
  intros H; injection H as <-; split.
  - destruct (lstrip_l_suffix l) as [pre E]; rewrite E, map_app.
    apply contains_l_app, prefix_contains_l, Hp.
  - apply prefix_l_length in Hp; rewrite length_map in Hp; simpl in Hp.
    pose proof (lstrip_l_length l).
    pose proof (lstrip_l_length (skipn 5 (Py.lstrip_l l))).
    pose proof (length_skipn 5 (Py.lstrip_l l)).
    simpl skipn in *; lia.
Qed.

Lemma match_today_at l :
  Py.prefix_l TODAY_l (map Py.upper_char l) = true -> Rush.match_today l <> None.
Proof.
  unfold Rush.match_today; intros Hp.
  destruct l as [|c r]; [discriminate|].
  assert (Hs : Py.isspace c = false).
  { simpl in Hp; apply andb_prop in Hp as [Hc _]; apply upper_T_not_space, Hc. }
  simpl Py.lstrip_l; rewrite Hs, prefix_today_upper, Hp; discriminate.
Qed.

Lemma sub_today_l_length f l : length (Rush.sub_today_l f l) <= length l.
Proof.
  revert l; induction f as [|f IH]; intros l; simpl; [lia|].
  destruct l as [|c r]; [simpl; lia|].
  destruct (Rush.match_today (c :: r)) as [rest|] eqn:Hm.
  - apply match_today_some in Hm as [_ Hl]; specialize (IH rest); lia.
  - simpl; specialize (IH r); lia.
Qed.

Lemma sub_today_l_id f l :
  Py.contains_l (map Py.upper_char l) TODAY_l = false -> Rush.sub_today_l f l = l.
Proof.
  revert l; induction f as [|f IH]; intros l Hc; simpl; [reflexivity|].
  destruct l as [|c r]; [reflexivity|].
  destruct (Rush.match_today (c :: r)) as [rest|] eqn:Hm.
  - apply match_today_some in Hm as [Hc' _]; congruence.
  - rewrite IH; [reflexivity|].
    simpl in Hc; apply orb_false_elim in Hc as [_ Hc]; exact Hc.
Qed.

Lemma sub_today_l_shrinks f l :
  length l < f -> Py.contains_l (map Py.upper_char l) TODAY_l = true ->
  length (Rush.sub_today_l f l) + 5 <= length l.
Proof.
  revert l; induction f as [|f IH]; intros l Hf Hc; [lia|]; simpl.
  destruct l as [|c r]; [discriminate|].
  destruct (Rush.match_today (c :: r)) as [rest|] eqn:Hm.
  - apply match_today_some in Hm as [_ Hl].
    pose proof (sub_today_l_length f rest); lia.
  - simpl in Hc; apply orb_prop in Hc as [Hp|Hc].
    + exfalso; apply (match_today_at (c :: r)); [exact Hp | exact Hm].
    + simpl in Hf |- *; specialize (IH r ltac:(lia) Hc); lia.
Qed.

Lemma length_string_of_list_ascii l : String.length (string_of_list_ascii l) = length l.
Proof. induction l; simpl; congruence. Qed.

Lemma length_list_ascii_of_string s : length (list_ascii_of_string s) = String.length s.
Proof. induction s; simpl; congruence. Qed.

Lemma has_today_l s :
  Rush.has_today s = Py.contains_l (map Py.upper_char (list_ascii_of_string s)) TODAY_l.
Proof.
  unfold Rush.has_today, Py.contains, Py.upper.
  rewrite String.list_ascii_of_string_of_list_ascii; reflexivity.
Qed.

(** A date cell without the rush token is its own canonical date. *)
Theorem sub_today_no_token s : Rush.has_today s = false -> Rush.sub_today s = s.
Proof.
  rewrite has_today_l; intros H; unfold Rush.sub_today.
  rewrite sub_today_l_id by exact H; apply string_of_list_ascii_of_string.
Qed.

Lemma sub_today_no_token_witness :
  Rush.has_today "7/2" = false /\ Rush.sub_today "7/2" = "7/2".
Proof. split; [reflexivity | apply sub_today_no_token; reflexivity]. Defined.

(** A date cell carrying the token loses at least the five letters of it:
    its canonical date is strictly shorter, so it differs from the cell. *)
Theorem sub_today_token_removed s :
  Rush.has_today s = true ->
  String.length (Rush.sub_today s) + 5 <= String.length s.
Proof.
  rewrite has_today_l; intros H; unfold Rush.sub_today.
  rewrite length_string_of_list_ascii, <- length_list_ascii_of_string.
  apply sub_today_l_shrinks; [lia | exact H].
Qed.

Lemma sub_today_token_removed_witness :
  String.length (Rush.sub_today "7/1 today") + 5 <= String.length "7/1 today".
Proof. apply sub_today_token_removed; reflexivity. Defined.

(** Removing the token never lengthens the date. *)
Theorem sub_today_length s : String.length (Rush.sub_today s) <= String.length s.
Proof.
  unfold Rush.sub_today; rewrite length_string_of_list_ascii,
    <- length_list_ascii_of_string; apply sub_today_l_length.
Qed.

(** ** Scan and the in-memory lists *)

(** [POST /scan] writes only to the store: whatever the key and the
    store's state, the in-memory [bag_list] and [scanned_bags] are left as
    they were. *)
Theorem scan_keeps_lists {C : Collation} key up st :
  bag_list (snd (scan key up st)) = bag_list st /\
  scanned_bags (snd (scan key up st)) = scanned_bags st.
Proof.
  destruct (scan_cases key up st) as [-> | (t & _ & ->)]; split; reflexivity.
Qed.

(** Hence the fallback listing of [GET /bags] never shows a scanned bag:
    in every reachable state it lists the names of the last successful
    import, in order, each with [scanned = false]. *)
Theorem get_bags_fallback_unscanned {C : Collation} order st :
  reachable st ->
  get_bags order false st =
    Resp 200 [("bags", JList (map (fun n =>
      JObj [("name", JStr n); ("scanned", JBool false)]) (bag_list st)))].
Proof.
  intros Hr; destruct (reachable_inv st Hr) as [Hsb _].
  unfold get_bags; rewrite Hsb; reflexivity.
Qed.

Lemma get_bags_fallback_unscanned_witness :
  get_bags (fun t => t) false st_jane =
    Resp 200 [("bags", JList (map (fun n =>
      JObj [("name", JStr n); ("scanned", JBool false)]) (bag_list st_jane)))].
Proof. apply get_bags_fallback_unscanned, st_jane_reachable. Defined.

(** ** Import composed with the readers *)

(** Right after a successful import, [GET /bags] (store up) lists the
    imported names, each once and all unscanned, in whatever order the
    store returns the rows; [GET /status] reports [total = N],
    [scanned = 0], [remaining = N]. *)
Theorem import_then_read {C : Collation} p src fault st body order :
  (forall t, Permutation (order t) t) ->
  fst (import_data p src fault st) = Resp 200 body ->
  let st' := snd (import_data p src fault st) in
  let N := Z.of_nat (length (bag_list st')) in
  (exists l, Permutation l (bag_list st') /\
     get_bags order true st' =
       Resp 200 [("bags", JList (map (fun n =>
         JObj [("name", JStr n); ("scanned", JBool false)]) l))]) /\
  status true st' =
    Resp 200 [("total", JInt N); ("scanned", JInt 0); ("remaining", JInt N)].
Proof.
  intros Hord Hr; pose proof (import_data_outcome p src fault st) as Ho.
  destruct (import_data p src fault st) as [r s]; simpl in *; subst r.
  destruct Ho as [(e & Er & _) | (frame & _ & _ & -> & _)]; [discriminate|].
  simpl; split.
  - set (ns := frame_names frame).
    exists (map name (order (map fresh_bag ns))); split.
    + transitivity (map name (map fresh_bag ns)); [apply Permutation_map, Hord|].
      rewrite map_map, map_id; reflexivity.
    + rewrite map_map; do 4 f_equal; apply map_ext_in; intros b Hb.
      apply (Permutation_in _ (Hord _)), in_map_iff in Hb as (n & <- & _).
      reflexivity.
  - rewrite length_map.
    assert (Hf : forall l, filter scanned (map fresh_bag l) = []).
    { induction l; simpl; auto. }
    rewrite Hf; simpl; rewrite Z.sub_0_r; reflexivity.
Qed.

Lemma import_then_read_witness :
  status true (snd (import_data "testrunrinse.xlsx" (SrcSheet sheet_jane) None st_jane))
  = Resp 200 [("total", JInt 2); ("scanned", JInt 0); ("remaining", JInt 2)].
Proof.
  destruct (import_then_read "testrunrinse.xlsx" (SrcSheet sheet_jane) None st_jane
              [("message", JStr "Imported 2 bags")] (fun t => t)) as [_ H].
  - intros t; apply Permutation_refl.
  - vm_compute; reflexivity.
  - rewrite H; vm_compute; reflexivity.
Defined.

Lemma run_rebuild_indep {C : Collation} fault ns db1 db2 :
  run_tx 0 fault (rebuild_stmts ns) db1 = run_tx 0 fault (rebuild_stmts ns) db2.
Proof.
  unfold rebuild_stmts; cbn [run_tx].
  destruct (fault_at fault 0); [reflexivity|]; cbn [exec_stmt]; reflexivity.
Qed.

(** The import starts with [DROP TABLE IF EXISTS]: its reply does not
    depend on the state it runs in, and neither does the state a successful
    import leaves behind.  Earlier imports and scans are simply discarded,
    so re-running an import is safe. *)
Theorem import_ignores_prior_state {C : Collation} p src fault st1 st2 :
  fst (import_data p src fault st1) = fst (import_data p src fault st2) /\
  ((exists body, fst (import_data p src fault st1) = Resp 200 body) ->
   snd (import_data p src fault st1) = snd (import_data p src fault st2)).
Proof.
  unfold import_data.
  destruct src as [|e|sh]; [split; [reflexivity|]; intros [b H]; discriminate| |].
  all: destruct (import_frame _) as [e'|frame];
       [split; [reflexivity|]; intros [b H]; discriminate|].
  all: rewrite (run_rebuild_indep fault (frame_names frame) (db st1) (db st2)).
  all: destruct (run_tx 0 fault _ (db st2));
       [split; [reflexivity|]; intros [b H]; discriminate | split; reflexivity].
Qed.

(** ** Scans are monotone *)

(** A scan never adds, removes, renames or reorders rows and never clears a
    [scanned] flag. *)
Theorem scan_monotone {C : Collation} key up st t :
  db st = Some t ->
  exists t', db (snd (scan key up st)) = Some t' /\
    map name t' = map name t /\
    Forall2 (fun b b' => scanned b = true -> scanned b' = true) t t'.
Proof.
  intros Ht.
  destruct (scan_cases key up st) as [-> | (t0 & Ht0 & ->)].
  - exists t; repeat split; auto.
    clear Ht; induction t; constructor; auto.
  - rewrite Ht in Ht0; injection Ht0 as <-; simpl.
    eexists; split; [reflexivity|]; split; [apply mark_scanned_names|].
    clear Ht; induction t as [|b t IH]; simpl; constructor; auto.
    destruct (coll_eq (name b) _); simpl; auto.
Qed.

Lemma scan_monotone_witness :
  exists t', db (snd (scan (Some "Jane") true st_jane)) = Some t' /\
    map name t' = map name [mkBag "Jane" false; mkBag "Bob" false] /\
    Forall2 (fun b b' => scanned b = true -> scanned b' = true)
      [mkBag "Jane" false; mkBag "Bob" false] t'.
Proof. apply (scan_monotone (Some "Jane") true st_jane), st_jane_db. Defined.

(** In every reachable state the counts of [GET /status] satisfy
    [0 <= scanned <= total]; [remaining] is never negative. *)
Theorem status_counts_bounded {C : Collation} st up :
  reachable st ->
  exists total sc,
    status up st = Resp 200 [("total", JInt total); ("scanned", JInt sc);
                             ("remaining", JInt (total - sc))] /\
    (0 <= sc <= total)%Z.
Proof.
  intros Hr; destruct (reachable_inv st Hr) as [Hsb _].
  unfold status; destruct up, (db st) as [t|].
  1: { eexists _, _; split; [reflexivity|].
       pose proof (filter_length_le scanned t); lia. }
  all: rewrite Hsb, status_fallback_remaining; simpl;
       eexists _, 0%Z; rewrite Z.sub_0_r; split; [reflexivity|lia].
Qed.

Lemma status_counts_bounded_witness :
  exists total sc,
    status true st_jane = Resp 200 [("total", JInt total); ("scanned", JInt sc);
                                    ("remaining", JInt (total - sc))] /\
    (0 <= sc <= total)%Z.
Proof. apply status_counts_bounded, st_jane_reachable. Defined.

(** ** Column resolution *)

Lemma find_index_none {A} (p : A -> bool) l :
  forallb (fun x => negb (p x)) l = true -> find_index p l = None.
Proof.
  induction l as [|x l IH]; simpl; auto.
  intros H; apply andb_prop in H as [Hx Hl].
  destruct (p x); [discriminate|]; rewrite IH; auto.
Qed.

(** When no header (after [strip()], in any case) names a date, a
    customer, or a weight ("wf"/"lbs") column, [next()] raises
    [StopIteration], whose text is empty: the import answers 500 with an
    empty error and changes nothing. *)
Theorem import_missing_column {C : Collation} p sh fault st :
  let hs := map Py.strip (headers sh) in
  forallb (fun c => negb (Py.contains (Py.lower c) "date")) hs = true \/
  forallb (fun c => negb (Py.contains (Py.lower c) "customer")) hs = true \/
  forallb (fun c => negb (Py.contains (Py.lower c) "wf" || Py.contains (Py.lower c) "lbs")) hs = true ->
  import_data p (SrcSheet sh) fault st = (err 500 "", st).
Proof.
  intros hs H; unfold import_data, import_frame, frame_of_sheet; fold hs.
  destruct H as [H|[H|H]]; apply find_index_none in H; rewrite H;
    repeat match goal with
           | |- context [find_index ?f hs] => destruct (find_index f hs)
           end; reflexivity.
Qed.

Lemma import_missing_column_witness :
  import_data "testrunrinse.xlsx"
    (SrcSheet (mkSheet ["Date"; "Client"; "WF LBS"] [[Some "7/1"; Some "Ann"; None]]))
    None st_jane = (err 500 "", st_jane).
Proof. apply import_missing_column; right; left; reflexivity. Defined.

(** ** OCR polling *)

Lemma poll_loop_timeout poll i n :
  poll_loop poll i n = PollTimeout <->
  (forall j, i <= j < i + n ->
     exists o, poll j = inr (JObj o) /\ status_succeeded o = false).
Proof.
  revert i; induction n as [|n IH]; intros i; simpl.
  - split; [intros _ j Hj; lia | reflexivity].
  - destruct (poll i) as [e|[s|z|b|l|o]] eqn:Hp.
    1-5: split; [discriminate|]; intros H; destruct (H i) as (o' & Ho' & _); [lia|];
         rewrite Hp in Ho'; discriminate.
    destruct (status_succeeded o) eqn:Hs.
    + split; [destruct (py_get o "analyzeResult"); discriminate|].
      intros H; destruct (H i) as (o' & Ho' & Hs'); [lia|].
      rewrite Hp in Ho'; injection Ho' as <-; congruence.
    + rewrite IH; split.
      * intros H j Hj; destruct (Nat.eq_dec j i) as [->|Hne]; [eauto|].
        apply H; lia.
      * intros H j Hj; apply H; lia.
Qed.

(** Once the image is accepted (200 or 202) and an operation URL is
    given, [POST /api/ocr] times out exactly when each of the first 15
    polls answers a JSON object whose status is not "succeeded" (a poll
    that raises, or answers something other than an object, makes the
    handler raise instead). *)
Theorem ocr_timeout_iff code text u poll :
  (code = 200 \/ code = 202)%Z -> u <> "" ->
  ocr true (PostResp code text (Some u)) poll = err 500 "Timeout polling OCR" <->
  (forall j, j < 15 -> exists o, poll j = inr (JObj o) /\ status_succeeded o = false).
Proof.
  intros Hc Hu; unfold ocr; simpl negb; cbv iota.
  replace (negb (Z.eqb code 200 || Z.eqb code 202)) with false
    by (destruct Hc as [->| ->]; reflexivity).
  assert (Hm : forall A (x y : A), match u with "" => x | String _ _ => y end = y)
    by (intros; destruct u; [contradiction|reflexivity]).
  rewrite Hm.
  assert (Hn := poll_loop_timeout poll 0 15).
  destruct (poll_loop poll 0 15) as [a|e|].
  - split; [destruct (read_lines a); discriminate|].
    intros H; assert (E : PollDone a = PollTimeout) by (apply Hn; intros j Hj; apply H; lia).
    discriminate.
  - split; [discriminate|].
    intros H; assert (E : PollFail e = PollTimeout) by (apply Hn; intros j Hj; apply H; lia).
    discriminate.
  - split; [intros _ j Hj; apply (proj1 Hn eq_refl); lia | reflexivity].
Qed.

Definition pending_poll (i : nat) : string + JVal :=
  inr (JObj [("status", JStr "running")]).

Lemma ocr_timeout_iff_witness :
  ocr true (PostResp 202 "" (Some "https://example/operations/1")) pending_poll
  = err 500 "Timeout polling OCR".
Proof.
  apply (ocr_timeout_iff 202 "" "https://example/operations/1" pending_poll).
  - right; reflexivity.
  - discriminate.
  - intros j _; eexists; split; reflexivity.
Defined.

(** A poll that raises before any poll has succeeded, within the 15
    allowed, is not caught: the handler raises the same exception. *)
Theorem ocr_poll_exception code text u poll m e :
  (code = 200 \/ code = 202)%Z -> u <> "" -> m < 15 ->
  (forall j, j < m -> exists o, poll j = inr (JObj o) /\ status_succeeded o = false) ->
  poll m = inl e ->
  ocr true (PostResp code text (Some u)) poll = Crash e.
Proof.
  intros Hc Hu Hm Hpre He; unfold ocr; simpl negb; cbv iota.
  replace (negb (Z.eqb code 200 || Z.eqb code 202)) with false
    by (destruct Hc as [->| ->]; reflexivity).
  destruct u as [|c u']; [contradiction|].
  assert (Hl : forall i n, i <= m < i + n ->
            (forall j, i <= j < m -> exists o, poll j = inr (JObj o) /\
                                         status_succeeded o = false) ->
            poll_loop poll i n = PollFail e).
  { intros i n; revert i; induction n as [|n IH]; intros i Hi Hj; [lia|]; simpl.
    destruct (Nat.eq_dec i m) as [->|Hne]; [rewrite He; reflexivity|].
    destruct (Hj i) as (o & -> & ->); [lia|].
    apply IH; [lia|]; intros j Hj'; apply Hj; lia. }
  rewrite (Hl 0 15); [reflexivity|lia|].
  intros j Hj; apply Hpre; lia.
Qed.

Lemma ocr_poll_exception_witness :
  ocr true (PostResp 202 "" (Some "u"))
    (fun i => if i <? 2 then pending_poll i else inl "ConnectionError") = Crash "ConnectionError".
Proof.
  apply (ocr_poll_exception 202 "" "u" _ 2 "ConnectionError").
  - right; reflexivity.
  - discriminate.
  - lia.
  - intros j Hj; apply Nat.ltb_lt in Hj; rewrite Hj; eexists; split; reflexivity.
  - reflexivity.
Defined.

Lemma poll_loop_ext poll1 poll2 i n :
  (forall j, i <= j < i + n -> poll1 j = poll2 j) ->
  poll_loop poll1 i n = poll_loop poll2 i n.
Proof.
  revert i; induction n as [|n IH]; intros i H; simpl; [reflexivity|].
  rewrite (H i) by lia.
  rewrite (IH (S i)) by (intros j Hj; apply H; lia); reflexivity.
Qed.

(** The polling loop is bounded: the reply of [POST /api/ocr] depends only
    on the first 15 polls of the operation. *)
Theorem ocr_polls_bounded has_image post poll1 poll2 :
  (forall j, j < 15 -> poll1 j = poll2 j) ->
  ocr has_image post poll1 = ocr has_image post poll2.
Proof.
  intros H; unfold ocr.
  rewrite (poll_loop_ext poll1 poll2 0 15) by (intros j Hj; apply H; lia).
  reflexivity.
Qed.

Lemma ocr_polls_bounded_witness :
  ocr true (PostResp 202 "" (Some "u")) pending_poll
  = ocr true (PostResp 202 "" (Some "u"))
      (fun i => if i <? 15 then pending_poll i else jane_poll i).
Proof.
  apply ocr_polls_bounded; intros j Hj.
  apply Nat.ltb_lt in Hj; rewrite Hj; reflexivity.
Defined.

(** ** [strip()] and the category *)

Lemma list_ascii_of_string_append s1 s2 :
  list_ascii_of_string (s1 ++ s2) = app (list_ascii_of_string s1) (list_ascii_of_string s2).
Proof. induction s1; simpl; congruence. Qed.

Lemma lstrip_l_snoc l d :
  Py.isspace d = true ->
  Py.lstrip_l (app l [d]) =
    match Py.lstrip_l l with [] => [] | m => app m [d] end.
Proof.
  intros Hd; induction l as [|c l IH]; simpl.
  - rewrite Hd; reflexivity.
  - destruct (Py.isspace c); [exact IH | reflexivity].
Qed.

Lemma strip_pad c d s :
  Py.isspace c = true -> Py.isspace d = true ->
  Py.strip (String c (s ++ String d "")) = Py.strip s.
Proof.
  intros Hc Hd; unfold Py.strip.
  cbn [list_ascii_of_string Py.lstrip_l]; rewrite Hc, list_ascii_of_string_append.
  cbn [list_ascii_of_string]; rewrite lstrip_l_snoc by exact Hd.
  destruct (Py.lstrip_l (list_ascii_of_string s)) as [|x m]; [reflexivity|].
  rewrite rev_app_distr; cbn [rev app Py.lstrip_l]; rewrite Hd; reflexivity.
Qed.

(** [classify_service] strips its text first: surrounding a weight cell
    with one blank character on each side does not change its category. *)
Theorem classify_service_pad c d s :
  Py.isspace c = true -> Py.isspace d = true ->
  classify_service (Some (String c (s ++ String d ""))) = classify_service (Some s).
Proof.
  intros Hc Hd; unfold classify_service, str_cell; rewrite strip_pad by assumption.
  reflexivity.
Qed.

Lemma classify_service_pad_witness :
  classify_service (Some " 20 ") = classify_service (Some "20").
Proof. apply (classify_service_pad " " " " "20"); reflexivity. Defined.
